(** * ASC 842 lease-calculation engine: shallow embedding and properties

    The engine (lease-calculations.ts) is a chain of pure functions on a
    [LeaseData] record: [calculateLeaseTerm], [calculatePresentValue],
    [calculateLeaseMetrics], [generateAmortizationSchedule],
    [generateInitialRecognitionEntry] and
    [generateMonthlyAmortizationEntries].

    The functions are embedded once, over an interface [Number] that lists
    the arithmetic the source applies to JavaScript numbers.  Properties that
    only depend on the shape of the program are proved for every
    implementation of that interface (IEEE-754 doubles included).  Properties
    that speak about amounts and tolerances are proved for the instance
    [QNumber] of exact rational arithmetic; the instance [DoubleNumber] of
    binary64 arithmetic re-runs the concrete leases as the source computes
    them. *)

From Stdlib Require Import ZArith QArith Qround Qabs Qpower List Bool String Lia Lqa.
From Stdlib Require Import DecimalString.
From Stdlib Require Import Floats Uint63.
From Stdlib Require Import Permutation Sorted.
Import ListNotations.

Local Open Scope string_scope.
Local Open Scope list_scope.
Local Open Scope Z_scope.

(** ** Numbers *)

(** The operations of the source on values of type [number].  [of_Z] reads an
    integer literal or an integer-valued number; [round] is [Math.round],
    [max] is [Math.max], [pow] is [Math.pow] at an integer exponent;
    [is_zero x] is [x === 0], [gtb x y] is [x > y] and [truthy x] is the
    conversion of [x] to a boolean in a condition. *)
Class Number : Type := {
  num : Type;
  of_Z : Z -> num;
  add : num -> num -> num;
  sub : num -> num -> num;
  mul : num -> num -> num;
  div : num -> num -> num;
  max : num -> num -> num;
  round : num -> num;
  pow : num -> Z -> num;
  is_zero : num -> bool;
  gtb : num -> num -> bool;
  truthy : num -> bool
}.

Declare Scope num_scope.
Delimit Scope num_scope with num.
Infix "+" := add : num_scope.
Infix "-" := sub : num_scope.
Infix "*" := mul : num_scope.
Infix "/" := div : num_scope.

(** ** Dates *)

(** The content of a date string [YYYY-MM-DD]: calendar year, month 1..12 and
    day of the month. *)
Record IsoDate : Type := mkIsoDate {
  iso_year : Z;
  iso_month : Z;
  iso_day : Z
}.

(** A [Date] object, through the three fields the engine reads and writes:
    [getFullYear], [getMonth] (0 for January) and [getDate].  The string is
    read as the calendar date it spells. *)
Record JsDate : Type := mkJsDate {
  getFullYear : Z;
  getMonth : Z;
  getDate : Z
}.

Definition newDate (s : IsoDate) : JsDate :=
  mkJsDate (iso_year s) (iso_month s - 1) (iso_day s).

Definition isLeapYear (y : Z) : bool :=
  ((y mod 4 =? 0) && negb (y mod 100 =? 0)) || (y mod 400 =? 0).

(** Number of days of month index [m] (0..11) of year [y]. *)
Definition daysInMonth (y m : Z) : Z :=
  if m =? 1 then (if isLeapYear y then 29 else 28)
  else if (m =? 3) || (m =? 5) || (m =? 8) || (m =? 10) then 30
  else 31.

(** [date.setMonth(m)]: the month index is brought back into 0..11 by carrying
    into the year, and a day past the end of that month runs over into the
    next one. *)
Definition setMonth (d : JsDate) (m : Z) : JsDate :=
  let y := getFullYear d + m / 12 in
  let mi := m mod 12 in
  let len := daysInMonth y mi in
  if getDate d <=? len then mkJsDate y mi (getDate d)
  else if mi =? 11 then mkJsDate (y + 1) 0 (getDate d - len)
  else mkJsDate y (mi + 1) (getDate d - len).

(** [date.toISOString().split('T')[0]] *)
Definition toISODate (d : JsDate) : IsoDate :=
  mkIsoDate (getFullYear d) (getMonth d + 1) (getDate d).

(** [endDate > startDate] on [Date] objects, as the validation layer tests it. *)
Definition date_ltb (a b : JsDate) : bool :=
  (getFullYear a <? getFullYear b)
  || ((getFullYear a =? getFullYear b)
      && ((getMonth a <? getMonth b)
          || ((getMonth a =? getMonth b) && (getDate a <? getDate b)))).

(** ** Records of types.ts *)

Inductive EntryType : Type :=
| initial_recognition
| monthly_amortization
| remeasurement.

(** ** Completions *)

(** The two failure kinds of the design document. *)
Inductive EngineError : Type :=
| DegenerateTermError
| InvalidRateError.

(** How a call ends: with a value, or by raising an error to the caller. *)
Inductive Completion (A : Type) : Type :=
| Returns (a : A)
| Raises (e : EngineError).

Arguments Returns {A} a.
Arguments Raises {A} e.

Section Engine.

Context {N : Number}.
Local Open Scope num_scope.

Record LeaseData : Type := mkLeaseData {
  id : option string;
  userId : string;
  leaseName : string;
  leaseStartDate : IsoDate;
  leaseEndDate : IsoDate;
  monthlyPayment : num;
  discountRate : num;
  prepaidRent : option num;
  initialDirectCosts : option num;
  leaseIncentives : option num
}.

Record AccountEntry : Type := mkAccountEntry {
  account : string;
  amount : num
}.

Record JournalEntry : Type := mkJournalEntry {
  leaseId : string;
  entryDate : IsoDate;
  entryType : EntryType;
  description : string;
  debits : list AccountEntry;
  credits : list AccountEntry
}.

Record LeaseCalculation : Type := mkLeaseCalculation {
  initialLeasePayment : num;
  initialRightOfUseAsset : num;
  initialLeaseLiability : num;
  monthlyInterestExpense : num;
  monthlyAmortizationExpense : num;
  monthlyLeaseLiabilityReduction : num;
  totalLeaseTerm : Z;
  presentValueOfLeasePayments : num
}.

Record MonthlySchedule : Type := mkMonthlySchedule {
  month : Z;
  date : IsoDate;
  beginningLeaseLiability : num;
  interestExpense : num;
  leasePayment : num;
  principalReduction : num;
  endingLeaseLiability : num;
  rightOfUseAssetAmortization : num;
  rightOfUseAssetBalance : num
}.

(** ** The calculation functions *)

(** [Math.round(x * 100) / 100] *)
Definition round2 (x : num) : num := round (x * of_Z 100) / of_Z 100.

(** [x || 0] on an optional number *)
Definition orZero (x : option num) : num :=
  match x with
  | Some v => if truthy v then v else of_Z 0
  | None => of_Z 0
  end.

(** [leaseData.id || ''] *)
Definition idOrEmpty (x : option string) : string :=
  match x with
  | Some s => s
  | None => EmptyString
  end.

Definition calculatePresentValue
  (monthlyPayment discountRate : num) (numberOfPayments : Z) : num :=
  let monthlyRate := discountRate / of_Z 12 in
  if is_zero monthlyRate then monthlyPayment * of_Z numberOfPayments
  else
    let presentValue :=
      monthlyPayment *
      ((of_Z 1 - pow (of_Z 1 + monthlyRate) (- numberOfPayments)) / monthlyRate) in
    round2 presentValue.

Definition calculateLeaseTerm (startDate endDate : IsoDate) : Z :=
  let start := newDate startDate in
  let end_ := newDate endDate in
  let months := ((getFullYear end_ - getFullYear start) * 12
                 + (getMonth end_ - getMonth start))%Z in
  months.

Definition calculateLeaseMetrics (leaseData : LeaseData) : LeaseCalculation :=
  let totalLeaseTerm :=
    calculateLeaseTerm (leaseStartDate leaseData) (leaseEndDate leaseData) in
  let presentValueOfLeasePayments :=
    calculatePresentValue (monthlyPayment leaseData) (discountRate leaseData)
      totalLeaseTerm in
  let initialDirectCosts := orZero (initialDirectCosts leaseData) in
  let prepaidRent := orZero (prepaidRent leaseData) in
  let leaseIncentives := orZero (leaseIncentives leaseData) in
  let initialLeaseLiability := presentValueOfLeasePayments in
  let initialRightOfUseAsset :=
    initialLeaseLiability + initialDirectCosts + prepaidRent - leaseIncentives in
  let monthlyAmortizationExpense := initialRightOfUseAsset / of_Z totalLeaseTerm in
  {| initialLeasePayment := monthlyPayment leaseData;
     initialRightOfUseAsset := round2 initialRightOfUseAsset;
     initialLeaseLiability := round2 initialLeaseLiability;
     monthlyInterestExpense := of_Z 0;
     monthlyAmortizationExpense := round2 monthlyAmortizationExpense;
     monthlyLeaseLiabilityReduction := of_Z 0;
     totalLeaseTerm := totalLeaseTerm;
     presentValueOfLeasePayments := round2 presentValueOfLeasePayments |}.

(** The two variables the loop of [generateAmortizationSchedule] carries from
    one iteration to the next. *)
Record Balances : Type := mkBalances {
  currentLeaseLiability : num;
  currentRightOfUseAsset : num
}.

(** The body of the loop at [month]: the row pushed onto the schedule, and the
    balances assigned at the end of the body. *)
Definition scheduleBody (leaseData : LeaseData) (calculation : LeaseCalculation)
  (month : Z) (b : Balances) : MonthlySchedule * Balances :=
  let monthlyRate := discountRate leaseData / of_Z 12 in
  let date0 := newDate (leaseStartDate leaseData) in
  let date := setMonth date0 (getMonth date0 + month - 1)%Z in
  let interestExpense := currentLeaseLiability b * monthlyRate in
  let principalReduction := monthlyPayment leaseData - interestExpense in
  let endingLeaseLiability := currentLeaseLiability b - principalReduction in
  let rightOfUseAssetAmortization := monthlyAmortizationExpense calculation in
  let rightOfUseAssetBalance :=
    currentRightOfUseAsset b - rightOfUseAssetAmortization in
  ({| month := month;
      date := toISODate date;
      beginningLeaseLiability := round2 (currentLeaseLiability b);
      interestExpense := round2 interestExpense;
      leasePayment := monthlyPayment leaseData;
      principalReduction := round2 principalReduction;
      endingLeaseLiability := round2 (max (of_Z 0) endingLeaseLiability);
      rightOfUseAssetAmortization := round2 rightOfUseAssetAmortization;
      rightOfUseAssetBalance := round2 (max (of_Z 0) rightOfUseAssetBalance) |},
   {| currentLeaseLiability := max (of_Z 0) endingLeaseLiability;
      currentRightOfUseAsset := max (of_Z 0) rightOfUseAssetBalance |}).

(** [for (let month = m; month <= totalLeaseTerm; month++)] with [n] iterations
    left: the rows pushed, in order. *)
Fixpoint scheduleLoop (leaseData : LeaseData) (calculation : LeaseCalculation)
  (n : nat) (month : Z) (b : Balances) : list MonthlySchedule :=
  match n with
  | O => []
  | S n' =>
      let (row, b') := scheduleBody leaseData calculation month b in
      row :: scheduleLoop leaseData calculation n' (month + 1)%Z b'
  end.

(** The balances the loop holds after [n] iterations started at [month]. *)
Fixpoint balancesAfter (leaseData : LeaseData) (calculation : LeaseCalculation)
  (n : nat) (month : Z) (b : Balances) : Balances :=
  match n with
  | O => b
  | S n' =>
      balancesAfter leaseData calculation n' (month + 1)%Z
        (snd (scheduleBody leaseData calculation month b))
  end.

Definition initialBalances (calculation : LeaseCalculation) : Balances :=
  {| currentLeaseLiability := initialLeaseLiability calculation;
     currentRightOfUseAsset := initialRightOfUseAsset calculation |}.

(** The loop runs for month = 1, 2, ..., totalLeaseTerm: [Z.to_nat] of the term
    iterations, none when the term is zero or negative. *)
Definition generateAmortizationSchedule (leaseData : LeaseData)
  : list MonthlySchedule :=
  let calculation := calculateLeaseMetrics leaseData in
  scheduleLoop leaseData calculation (Z.to_nat (totalLeaseTerm calculation)) 1%Z
    (initialBalances calculation).

(** The loop as the design document words it, for comparison: "all amounts
    rounded to 2 decimals per row before being carried forward".  Same body,
    but the balances assigned at its end are rounded. *)
Definition roundedCarry (b : Balances) : Balances :=
  {| currentLeaseLiability := round2 (currentLeaseLiability b);
     currentRightOfUseAsset := round2 (currentRightOfUseAsset b) |}.

Fixpoint scheduleLoop_spec (leaseData : LeaseData)
  (calculation : LeaseCalculation) (n : nat) (month : Z) (b : Balances)
  : list MonthlySchedule :=
  match n with
  | O => []
  | S n' =>
      let (row, b') := scheduleBody leaseData calculation month b in
      row :: scheduleLoop_spec leaseData calculation n' (month + 1)%Z
               (roundedCarry b')
  end.

Definition generateAmortizationSchedule_spec (leaseData : LeaseData)
  : list MonthlySchedule :=
  let calculation := calculateLeaseMetrics leaseData in
  scheduleLoop_spec leaseData calculation
    (Z.to_nat (totalLeaseTerm calculation)) 1%Z (initialBalances calculation).

(** [if (x && x > 0) { l.push({ account, amount: x }) }] on an optional
    number [x] *)
Definition pushIfPositive (x : option num) (acct : string)
  (l : list AccountEntry) : list AccountEntry :=
  match x with
  | Some v =>
      if truthy v && gtb v (of_Z 0) then l ++ [mkAccountEntry acct v] else l
  | None => l
  end.

Definition generateInitialRecognitionEntry (leaseData : LeaseData) : JournalEntry :=
  let calculation := calculateLeaseMetrics leaseData in
  let debits0 :=
    [ mkAccountEntry "Right-of-Use Asset" (initialRightOfUseAsset calculation) ] in
  let credits0 :=
    [ mkAccountEntry "Lease Liability" (initialLeaseLiability calculation) ] in
  let credits1 := pushIfPositive (prepaidRent leaseData) "Prepaid Rent" credits0 in
  let credits2 := pushIfPositive (initialDirectCosts leaseData) "Cash" credits1 in
  let debits1 :=
    pushIfPositive (leaseIncentives leaseData) "Lease Incentives Receivable"
      debits0 in
  {| leaseId := idOrEmpty (id leaseData);
     entryDate := leaseStartDate leaseData;
     entryType := initial_recognition;
     description :=
       String.append "Initial recognition of lease: " (leaseName leaseData);
     debits := debits1;
     credits := credits2 |}.

(** The decimal spelling of the month number in a template string. *)
Definition showZ (z : Z) : string := NilZero.string_of_int (Z.to_int z).

Definition interestEntry (leaseData : LeaseData) (monthData : MonthlySchedule)
  : JournalEntry :=
  {| leaseId := idOrEmpty (id leaseData);
     entryDate := date monthData;
     entryType := monthly_amortization;
     description :=
       String.append "Month "
         (String.append (showZ (month monthData))
            " - Interest expense and lease payment");
     debits :=
       [ mkAccountEntry "Interest Expense" (interestExpense monthData);
         mkAccountEntry "Lease Liability" (principalReduction monthData) ];
     credits := [ mkAccountEntry "Cash" (leasePayment monthData) ] |}.

Definition amortizationEntry (leaseData : LeaseData) (monthData : MonthlySchedule)
  : JournalEntry :=
  {| leaseId := idOrEmpty (id leaseData);
     entryDate := date monthData;
     entryType := monthly_amortization;
     description :=
       String.append "Month "
         (String.append (showZ (month monthData))
            " - Right-of-use asset amortization");
     debits :=
       [ mkAccountEntry "Amortization Expense - Right-of-Use Asset"
           (rightOfUseAssetAmortization monthData) ];
     credits :=
       [ mkAccountEntry "Accumulated Amortization - Right-of-Use Asset"
           (rightOfUseAssetAmortization monthData) ] |}.

(** [schedule.forEach(monthData => entries.push(interestEntry, amortizationEntry))] *)
Definition generateMonthlyAmortizationEntries (leaseData : LeaseData)
  : list JournalEntry :=
  let schedule := generateAmortizationSchedule leaseData in
  fold_left
    (fun entries monthData =>
       entries ++ [interestEntry leaseData monthData;
                   amortizationEntry leaseData monthData])
    schedule [].


(** A call of [calculateLeaseMetrics].  Its body holds no [throw] and no test
    of the term or of the rate: every path ends at the [return]. *)
Definition run_calculateLeaseMetrics (leaseData : LeaseData)
  : Completion LeaseCalculation :=
  Returns (calculateLeaseMetrics leaseData).

(** A call of [generateAmortizationSchedule]: likewise, the body ends at
    [return schedule] on every path. *)
Definition run_generateAmortizationSchedule (leaseData : LeaseData)
  : Completion (list MonthlySchedule) :=
  match run_calculateLeaseMetrics leaseData with
  | Returns calculation =>
      Returns
        (scheduleLoop leaseData calculation
           (Z.to_nat (totalLeaseTerm calculation)) 1%Z
           (initialBalances calculation))
  | Raises e => Raises e
  end.

(** [schedule[schedule.length - 1]] *)
Definition lastRow (schedule : list MonthlySchedule) : option MonthlySchedule :=
  nth_error schedule (List.length schedule - 1).

End Engine.

(** ** Exact rational arithmetic *)

Local Open Scope Q_scope.

Definition Qround_half_up (x : Q) : Q := inject_Z (Qfloor (x + (1#2))).

Definition Qmax0 (a b : Q) : Q := if Qle_bool a b then b else a.

(** Amounts as exact rationals, each result kept in lowest terms.  [Q] has no
    Infinity and no NaN: where the source divides by zero, [QNumber] yields 0.
    On validated terms that happens in one place only, the
    [monthlyAmortizationExpense] of a lease of 0 months, which no row and no
    journal entry reads; on other inputs it also happens when the rate is
    -12, where the base [1 + monthlyRate] of the power is 0. *)
#[export] Instance QNumber : Number := {|
  num := Q;
  of_Z := inject_Z;
  add := fun a b => Qred (a + b);
  sub := fun a b => Qred (a - b);
  mul := fun a b => Qred (a * b);
  div := fun a b => Qred (a / b);
  max := Qmax0;
  round := Qround_half_up;
  pow := fun a z => Qred (Qpower a z);
  is_zero := fun a => Qeq_bool a 0;
  gtb := fun a b => negb (Qle_bool a b);
  truthy := fun a => negb (Qeq_bool a 0)
|}.

(** ** The validation layer (validations.ts), on exact amounts *)




(** ** The present-value formula as the design document words it *)



(** ** Liability without the floor *)

(** 1 + g + ... + g^(n-1): what n payments of 1 are worth at the end of
    month n, when a balance grows by the factor g each month. *)
Fixpoint geometricSum (g : Q) (n : nat) : Q :=
  match n with
  | O => 0
  | S k => geometricSum g k + g ^ Z.of_nat k
  end.

(** ** Concrete leases *)

(** The lease of the repository's test suite. *)
Definition sampleLeaseData : @LeaseData QNumber :=
  {| id := Some "test-lease-1";
     userId := "test-user";
     leaseName := "Test Office Lease";
     leaseStartDate := mkIsoDate 2024 1 1;
     leaseEndDate := mkIsoDate 2026 12 31;
     monthlyPayment := 5000%Q;
     discountRate := (5 # 100)%Q;
     prepaidRent := Some 1000%Q;
     initialDirectCosts := Some 500%Q;
     leaseIncentives := Some 2000%Q |}.

(** A lease from 2024-01-01 with no optional amount. *)
Definition plainLease (payment rate : Q) (endYear endMonth endDay : Z)
  : @LeaseData QNumber :=
  {| id := None;
     userId := "test-user";
     leaseName := "Lease";
     leaseStartDate := mkIsoDate 2024 1 1;
     leaseEndDate := mkIsoDate endYear endMonth endDay;
     monthlyPayment := payment;
     discountRate := rate;
     prepaidRent := None;
     initialDirectCosts := None;
     leaseIncentives := None |}.

(** Start and end in the same calendar month (the test suite's
    [single month lease]). *)
Definition sameMonthLease : @LeaseData QNumber :=
  plainLease 5000 (5 # 100) 2024 1 31.

(** A discount rate of 200%, outside [0, 1]. *)
Definition rate200Lease : @LeaseData QNumber :=
  plainLease 5000 2 2026 12 31.

(** Two months: January to mid-March. *)
Definition twoMonthLease : @LeaseData QNumber :=
  plainLease 5000 (5 # 100) 2024 3 15.

(** Four years at the largest rate the validation layer lets through. *)
Definition fourYearLease : @LeaseData QNumber :=
  plainLease 1200 1 2028 1 1.

(** ** Binary64 arithmetic *)

Module Binary64.

Local Open Scope float_scope.

Definition two52 : float := 4503599627370496.

(** [Math.floor]: below 2^52 in magnitude, adding and subtracting 2^52 gives
    the nearest integer, corrected downwards; larger doubles are integers. *)
Definition mathFloor (x : float) : float :=
  if PrimFloat.ltb (PrimFloat.abs x) two52 then
    let y := if PrimFloat.ltb x 0 then (x - two52) + two52
             else (x + two52) - two52 in
    if PrimFloat.ltb x y then y - 1 else y
  else x.

(** [Math.round]: the nearest integer, a tie going upwards. *)
Definition mathRound (x : float) : float :=
  let f := mathFloor x in
  if PrimFloat.leb (1 / 2) (x - f) then f + 1 else f.

(** [Math.max] of two numbers: NaN if either is. *)
Definition mathMax (a b : float) : float :=
  if PrimFloat.ltb a b then b
  else if PrimFloat.eqb b b then a else b.

Definition ofZ (z : Z) : float :=
  match z with
  | Z0 => 0
  | Zpos _ => PrimFloat.of_uint63 (Uint63.of_Z z)
  | Zneg p => - PrimFloat.of_uint63 (Uint63.of_Z (Zpos p))
  end.

Fixpoint powPos (x : float) (p : positive) : float :=
  match p with
  | xH => x
  | xO q => let y := powPos x q in y * y
  | xI q => let y := powPos x q in x * (y * y)
  end.

(** [Math.pow] at an integer exponent, by repeated squaring.  The language
    leaves the last digits of [Math.pow] to the implementation; this one is a
    few units in the last place from the exact power. *)
Definition mathPow (x : float) (z : Z) : float :=
  match z with
  | Z0 => 1
  | Zpos p => powPos x p
  | Zneg p => 1 / powPos x p
  end.

#[export] Instance DoubleNumber : Number := {|
  num := float;
  of_Z := ofZ;
  add := PrimFloat.add;
  sub := PrimFloat.sub;
  mul := PrimFloat.mul;
  div := PrimFloat.div;
  max := mathMax;
  round := mathRound;
  pow := mathPow;
  is_zero := fun x => PrimFloat.eqb x 0;
  gtb := fun a b => PrimFloat.ltb b a;
  truthy := fun x => negb (PrimFloat.eqb x 0) && PrimFloat.eqb x x
|}.

(** The decimal literal [n / 100] of the source, as the nearest double. *)
Definition hundredths (n : Z) : float := ofZ n / ofZ 100.

Definition plainLease (payment rate : float) (endYear endMonth endDay : Z)
  : @LeaseData DoubleNumber :=
  {| id := None;
     userId := "test-user";
     leaseName := "Lease";
     leaseStartDate := mkIsoDate 2024 1 1;
     leaseEndDate := mkIsoDate endYear endMonth endDay;
     monthlyPayment := payment;
     discountRate := rate;
     prepaidRent := None;
     initialDirectCosts := None;
     leaseIncentives := None |}.

(** The lease of the repository's test suite. *)
Definition sampleLeaseData : @LeaseData DoubleNumber :=
  {| id := Some "test-lease-1";
     userId := "test-user";
     leaseName := "Test Office Lease";
     leaseStartDate := mkIsoDate 2024 1 1;
     leaseEndDate := mkIsoDate 2026 12 31;
     monthlyPayment := 5000;
     discountRate := hundredths 5;
     prepaidRent := Some 1000;
     initialDirectCosts := Some 500;
     leaseIncentives := Some 2000 |}.

(** Four years at a rate of 100%. *)
Definition fourYearLease : @LeaseData DoubleNumber :=
  plainLease 1200 1 2028 1 1.

(** Thirty years at a rate of 12%. *)
Definition thirtyYearLease : @LeaseData DoubleNumber :=
  plainLease 5000 (hundredths 12) 2054 1 1.

End Binary64.

(** ** The rest of the validation layer *)

(** An optional amount left out, or given as 0. *)
Definition omittedOrZero (x : option Q) : Prop :=
  match x with
  | Some v => v == 0
  | None => True
  end.





(** ** The API routes *)

(** How a route handler answers: the JSON body of a 200, or the status of an
    error response. *)
Inductive Response (A : Type) : Type :=
| Ok (body : A)
| BadRequest
| Unauthorized
| Forbidden
| NotFound
| InternalServerError.

Arguments Ok {A} body.
Arguments BadRequest {A}.
Arguments Unauthorized {A}.
Arguments Forbidden {A}.
Arguments NotFound {A}.
Arguments InternalServerError {A}.

(** [s.split(sep)[1]] for a string [s] that starts with [sep]: what stands
    between the leading [sep] and the next one. *)
Definition splitSecond (sep s : string) : string :=
  let rest := substring (String.length sep) (String.length s - String.length sep) s in
  match index 0 sep rest with
  | Some k => substring 0 k rest
  | None => rest
  end.

Section Routes.

Context {N : Number}.

(** [adminAuth.verifyIdToken]: the uid of the decoded token, or nothing when
    the call throws. *)
Variable verifyIdToken : string -> option string.

(** [verifyAuth], on the value of the authorization header. *)
Definition verifyAuth (authHeader : option string) : option string :=
  match authHeader with
  | None => None
  | Some h =>
      if (h =? "")%string || negb (prefix "Bearer " h) then None
      else verifyIdToken (splitSecond "Bearer " h)
  end.

(** A document of the [journalEntries] collection: its name, the entry, and
    the [createdAt] stamp written with it. *)
Record StoredEntry : Type := mkStoredEntry {
  docId : string;
  docData : JournalEntry;
  createdAt : string
}.

(** The two collections.  A lease document is its name and its data. *)
Record Firestore : Type := mkFirestore {
  leasesCollection : list (string * LeaseData);
  journalEntriesCollection : list StoredEntry
}.

(** [adminDb.collection('leases').doc(name).get()] *)
Definition getLease (db : Firestore) (name : string) : option LeaseData :=
  option_map snd
    (find (fun d => (fst d =? name)%string) (leasesCollection db)).

(** [journalEntriesRef.where('leaseId', '==', name).get()] *)
Definition entriesWhereLeaseId (db : Firestore) (name : string)
  : list StoredEntry :=
  filter (fun d => (leaseId (docData d) =? name)%string)
    (journalEntriesCollection db).

(** [{ id: name, ...leaseData }]: an [id] held by the data wins. *)
Definition withId (name : string) (leaseData : LeaseData) : LeaseData :=
  {| id := match id leaseData with
           | Some i => Some i
           | None => Some name
           end;
     userId := userId leaseData;
     leaseName := leaseName leaseData;
     leaseStartDate := leaseStartDate leaseData;
     leaseEndDate := leaseEndDate leaseData;
     monthlyPayment := monthlyPayment leaseData;
     discountRate := discountRate leaseData;
     prepaidRent := prepaidRent leaseData;
     initialDirectCosts := initialDirectCosts leaseData;
     leaseIncentives := leaseIncentives leaseData |}.

(** [[initialEntry, ...monthlyEntries]] *)
Definition allEntries (fullLeaseData : LeaseData) : list JournalEntry :=
  generateInitialRecognitionEntry fullLeaseData
  :: generateMonthlyAmortizationEntries fullLeaseData.

(** The loop over [allEntries]: entry number [k] gets the document name
    [newIds k] that [journalEntriesRef.doc()] hands out and the time
    [clock k] that [new Date().toISOString()] reads. *)
Fixpoint stampEntries (newIds clock : nat -> string) (k : nat)
  (entries : list JournalEntry) : list StoredEntry :=
  match entries with
  | [] => []
  | e :: rest =>
      mkStoredEntry (newIds k) e (clock k)
      :: stampEntries newIds clock (S k) rest
  end.

(** [new Date(a.entryDate).getTime() - new Date(b.entryDate).getTime() < 0] *)
Definition entryDateBefore (a b : StoredEntry) : bool :=
  date_ltb (newDate (entryDate (docData a))) (newDate (entryDate (docData b))).

(** In a list sorted by date, an entry is not followed by one that comes
    before it. *)
Definition notAfter (a b : StoredEntry) : Prop := entryDateBefore b a = false.

Fixpoint insertByDate (x : StoredEntry) (l : list StoredEntry)
  : list StoredEntry :=
  match l with
  | [] => [x]
  | y :: rest =>
      if entryDateBefore x y then x :: y :: rest
      else y :: insertByDate x rest
  end.

(** [entries.sort((a, b) => time(a) - time(b))]: by date, entries of the same
    date staying in the order they had. *)
Definition sortByEntryDate (entries : list StoredEntry) : list StoredEntry :=
  fold_left (fun sorted x => insertByDate x sorted) entries [].

(** GET /api/journal-entries?leaseId=...  The documents written by the batch
    are new ones. *)
Definition journalEntries_GET (authHeader leaseIdParam : option string)
  (newIds clock : nat -> string) (db : Firestore)
  : Response (list StoredEntry) * Firestore :=
  match verifyAuth authHeader with
  | None => (Unauthorized, db)
  | Some uid =>
      match leaseIdParam with
      | None => (BadRequest, db)
      | Some name =>
          if (name =? "")%string then (BadRequest, db)
          else
            match getLease db name with
            | None => (NotFound, db)
            | Some leaseData =>
                if negb (userId leaseData =? uid)%string then (Forbidden, db)
                else
                  match entriesWhereLeaseId db name with
                  | [] =>
                      let fullLeaseData := withId name leaseData in
                      let generatedEntries :=
                        stampEntries newIds clock 0 (allEntries fullLeaseData) in
                      (Ok generatedEntries,
                       mkFirestore (leasesCollection db)
                         (journalEntriesCollection db ++ generatedEntries))
                  | storedEntries => (Ok (sortByEntryDate storedEntries), db)
                  end
            end
      end
  end.

(** POST /api/journal-entries (regenerate).  [body] is what
    [request.json()] gives: nothing when it throws, else the [leaseId] member
    of the body if it has one. *)
Definition journalEntries_POST (authHeader : option string)
  (body : option (option string)) (newIds clock : nat -> string)
  (db : Firestore) : Response (list StoredEntry) * Firestore :=
  match verifyAuth authHeader with
  | None => (Unauthorized, db)
  | Some uid =>
      match body with
      | None => (InternalServerError, db)
      | Some None => (BadRequest, db)
      | Some (Some name) =>
          if (name =? "")%string then (BadRequest, db)
          else
            match getLease db name with
            | None => (NotFound, db)
            | Some leaseData =>
                if negb (userId leaseData =? uid)%string then (Forbidden, db)
                else
                  let kept :=
                    filter
                      (fun d => negb (leaseId (docData d) =? name)%string)
                      (journalEntriesCollection db) in
                  let fullLeaseData := withId name leaseData in
                  let generatedEntries :=
                    stampEntries newIds clock 0 (allEntries fullLeaseData) in
                  (Ok (sortByEntryDate generatedEntries),
                   mkFirestore (leasesCollection db) (kept ++ generatedEntries))
            end
      end
  end.

(** DELETE /api/leases/[id] *)
Definition lease_DELETE (authHeader : option string) (name : string)
  (db : Firestore) : Response unit * Firestore :=
  match verifyAuth authHeader with
  | None => (Unauthorized, db)
  | Some uid =>
      match getLease db name with
      | None => (NotFound, db)
      | Some leaseData =>
          if negb (userId leaseData =? uid)%string then (Forbidden, db)
          else
            (Ok tt,
             mkFirestore
               (filter (fun d => negb (fst d =? name)%string)
                  (leasesCollection db))
               (filter (fun d => negb (leaseId (docData d) =? name)%string)
                  (journalEntriesCollection db)))
      end
  end.

(** GET /api/leases/[id] *)
Definition lease_GET (authHeader : option string) (name : string)
  (db : Firestore) : Response LeaseData :=
  match verifyAuth authHeader with
  | None => Unauthorized
  | Some uid =>
      match getLease db name with
      | None => NotFound
      | Some leaseData =>
          if negb (userId leaseData =? uid)%string then Forbidden
          else Ok (withId name leaseData)
      end
  end.

(** GET /api/leases *)
Definition leases_GET (authHeader : option string) (db : Firestore)
  : Response (list LeaseData) :=
  match verifyAuth authHeader with
  | None => Unauthorized
  | Some uid =>
      Ok (map (fun d => withId (fst d) (snd d))
            (filter (fun d => (userId (snd d) =? uid)%string)
               (leasesCollection db)))
  end.

End Routes.

(** ** A small store *)


(** One token is known; it belongs to the user of the concrete leases. *)
Definition demoVerifyIdToken (token : string) : option string :=
  if (token =? "token-1")%string then Some "test-user"%string else None.

Definition demoAuthHeader : option string := Some "Bearer token-1"%string.

Definition demoNewIds (k : nat) : string :=
  String.append "doc-" (showZ (Z.of_nat k)).

Definition demoClock (k : nat) : string := "2024-06-01T00:00:00.000Z"%string.

(** The two-month lease stored as [lease-1], with no journal entry yet. *)
Definition demoDb : @Firestore QNumber :=
  mkFirestore [("lease-1"%string, twoMonthLease)] [].

(** The same, with the initial recognition entry stored. *)
Definition demoDbWithEntry : @Firestore QNumber :=
  mkFirestore [("lease-1"%string, twoMonthLease)]
    [mkStoredEntry "doc-0"
       (generateInitialRecognitionEntry (withId "lease-1" twoMonthLease))
       "2024-06-01T00:00:00.000Z"].

(** * Properties of the program's shape

    Everything in this section holds for every implementation of [Number]. *)

Section Shape.

Context {N : Number}.
Local Open Scope num_scope.

Variable leaseData : LeaseData.
Variable calculation : LeaseCalculation.

(** *** The loop of [generateAmortizationSchedule] *)

Lemma scheduleLoop_succ (n : nat) (m : Z) (b : Balances) :
  scheduleLoop leaseData calculation (S n) m b =
  fst (scheduleBody leaseData calculation m b)
  :: scheduleLoop leaseData calculation n (m + 1)%Z
       (snd (scheduleBody leaseData calculation m b)).
Proof.
  cbn [scheduleLoop].
  now destruct (scheduleBody leaseData calculation m b).
Qed.

Lemma scheduleLoop_length (n : nat) (m : Z) (b : Balances) :
  List.length (scheduleLoop leaseData calculation n m b) = n.
Proof.
  revert m b.
  induction n as [|n IH]; intros m b.
  - reflexivity.
  - rewrite scheduleLoop_succ. cbn [List.length]. now rewrite IH.
Qed.

(** The balances after one more iteration are the ones the body assigns. *)
Lemma balancesAfter_succ (n : nat) (m : Z) (b : Balances) :
  balancesAfter leaseData calculation (S n) m b =
  snd (scheduleBody leaseData calculation (m + Z.of_nat n)%Z
         (balancesAfter leaseData calculation n m b)).
Proof.
  revert m b.
  induction n as [|n IH]; intros m b.
  - cbn [Z.of_nat balancesAfter]. now rewrite Z.add_0_r.
  - change (balancesAfter leaseData calculation (S (S n)) m b)
      with (balancesAfter leaseData calculation (S n) (m + 1)%Z
              (snd (scheduleBody leaseData calculation m b))).
    rewrite IH.
    replace (m + 1 + Z.of_nat n)%Z with (m + Z.of_nat (S n))%Z by lia.
    reflexivity.
Qed.

(** Row [i] of the loop is the row the body pushes at month [m + i], run on
    the balances the loop holds after [i] iterations. *)
Lemma scheduleLoop_nth (n i : nat) (m : Z) (b : Balances) :
  (i < n)%nat ->
  nth_error (scheduleLoop leaseData calculation n m b) i =
  Some (fst (scheduleBody leaseData calculation (m + Z.of_nat i)%Z
               (balancesAfter leaseData calculation i m b))).
Proof.
  revert i m b.
  induction n as [|n IH]; intros i m b Hi.
  - lia.
  - rewrite scheduleLoop_succ.
    destruct i as [|i].
    + cbn [nth_error Z.of_nat balancesAfter].
      now rewrite Z.add_0_r.
    + cbn [nth_error balancesAfter]. rewrite IH by lia.
      replace (m + 1 + Z.of_nat i)%Z with (m + Z.of_nat (S i))%Z by lia.
      reflexivity.
Qed.

Lemma scheduleLoop_nth_inv (n i : nat) (m : Z) (b : Balances)
  (row : MonthlySchedule) :
  nth_error (scheduleLoop leaseData calculation n m b) i = Some row ->
  (i < n)%nat /\
  row = fst (scheduleBody leaseData calculation (m + Z.of_nat i)%Z
               (balancesAfter leaseData calculation i m b)).
Proof.
  intros H.
  assert (Hi : (i < n)%nat).
  { rewrite <- (scheduleLoop_length n m b).
    apply nth_error_Some. congruence. }
  split; [exact Hi|].
  rewrite (scheduleLoop_nth n i m b Hi) in H. congruence.
Qed.

(** What the body stores and what it carries. *)
Lemma scheduleBody_beginning (m : Z) (b : Balances) :
  beginningLeaseLiability (fst (scheduleBody leaseData calculation m b)) =
  round2 (currentLeaseLiability b).
Proof. reflexivity. Qed.

Lemma scheduleBody_ending (m : Z) (b : Balances) :
  endingLeaseLiability (fst (scheduleBody leaseData calculation m b)) =
  round2 (currentLeaseLiability (snd (scheduleBody leaseData calculation m b))).
Proof. reflexivity. Qed.

Lemma scheduleBody_rou_balance (m : Z) (b : Balances) :
  rightOfUseAssetBalance (fst (scheduleBody leaseData calculation m b)) =
  round2 (currentRightOfUseAsset (snd (scheduleBody leaseData calculation m b))).
Proof. reflexivity. Qed.

Lemma scheduleBody_carried (m : Z) (b : Balances) :
  snd (scheduleBody leaseData calculation m b) =
  let monthlyRate := discountRate leaseData / of_Z 12 in
  let interestExpense := currentLeaseLiability b * monthlyRate in
  let principalReduction := monthlyPayment leaseData - interestExpense in
  {| currentLeaseLiability :=
       max (of_Z 0) (currentLeaseLiability b - principalReduction);
     currentRightOfUseAsset :=
       max (of_Z 0)
         (currentRightOfUseAsset b - monthlyAmortizationExpense calculation) |}.
Proof. reflexivity. Qed.

End Shape.

Section ShapeClaims.

Context {N : Number}.
Local Open Scope num_scope.

(** *** Journal entries of the schedule *)

Lemma push_pairs_fold {A B : Type} (f g : A -> B) (l : list A) (acc : list B) :
  fold_left (fun entries x => entries ++ [f x; g x]) l acc =
  acc ++ flat_map (fun x => [f x; g x]) l.
Proof.
  revert acc.
  induction l as [|x l IH]; intros acc; cbn [fold_left flat_map].
  - now rewrite app_nil_r.
  - rewrite IH, <- app_assoc. reflexivity.
Qed.

Lemma pairs_length {A B : Type} (f g : A -> B) (l : list A) :
  List.length (flat_map (fun x => [f x; g x]) l) = (2 * List.length l)%nat.
Proof.
  induction l as [|x l IH]; cbn [flat_map List.length app]; lia.
Qed.


Lemma monthly_entries_flat_map (ld : LeaseData) :
  generateMonthlyAmortizationEntries ld =
  flat_map (fun row => [interestEntry ld row; amortizationEntry ld row])
    (generateAmortizationSchedule ld).
Proof.
  unfold generateMonthlyAmortizationEntries.
  now rewrite push_pairs_fold.
Qed.

Lemma schedule_nth_inv (ld : LeaseData) (i : nat) (row : MonthlySchedule) :
  nth_error (generateAmortizationSchedule ld) i = Some row ->
  row = fst (scheduleBody ld (calculateLeaseMetrics ld) (1 + Z.of_nat i)%Z
               (balancesAfter ld (calculateLeaseMetrics ld) i 1%Z
                  (initialBalances (calculateLeaseMetrics ld)))).
Proof.
  unfold generateAmortizationSchedule. intros H.
  now apply scheduleLoop_nth_inv in H.
Qed.

(** *** The claims *)

(** C1 (as the code has it): neither [calculateLeaseMetrics] nor
    [generateAmortizationSchedule] raises an error, whatever the term and the
    discount rate.  Both return; the record returned carries the term as
    resolved, and on a term of zero or fewer months the schedule returned is
    empty. *)
Theorem engine_returns_on_every_input (ld : LeaseData) :
  run_calculateLeaseMetrics ld = Returns (calculateLeaseMetrics ld)
  /\ run_generateAmortizationSchedule ld =
       Returns (generateAmortizationSchedule ld)
  /\ totalLeaseTerm (calculateLeaseMetrics ld) =
       calculateLeaseTerm (leaseStartDate ld) (leaseEndDate ld)
  /\ ((calculateLeaseTerm (leaseStartDate ld) (leaseEndDate ld) <= 0)%Z ->
      generateAmortizationSchedule ld = []).
Proof.
  split; [reflexivity|].
  split; [reflexivity|].
  split; [reflexivity|].
  intros Hterm.
  unfold generateAmortizationSchedule.
  change (totalLeaseTerm (calculateLeaseMetrics ld))
    with (calculateLeaseTerm (leaseStartDate ld) (leaseEndDate ld)).
  destruct (calculateLeaseTerm (leaseStartDate ld) (leaseEndDate ld));
    try reflexivity.
  lia.
Qed.

(** C2 (as the code has it): the balances that iteration i+2 of the loop
    starts from are the full-precision ending balances of iteration i+1,
    floored at zero and not rounded; rounding to 2 decimals is applied only to
    the copies stored in the row. *)
Theorem carried_balances_are_unrounded
  (ld : LeaseData) (i : nat) (row row' : MonthlySchedule) :
  let calc := calculateLeaseMetrics ld in
  let before := balancesAfter ld calc i 1%Z (initialBalances calc) in
  let carried := balancesAfter ld calc (S i) 1%Z (initialBalances calc) in
  let interest := currentLeaseLiability before * (discountRate ld / of_Z 12) in
  nth_error (generateAmortizationSchedule ld) i = Some row ->
  nth_error (generateAmortizationSchedule ld) (S i) = Some row' ->
  row' = fst (scheduleBody ld calc (1 + Z.of_nat (S i))%Z carried)
  /\ currentLeaseLiability carried =
       max (of_Z 0)
         (currentLeaseLiability before - (monthlyPayment ld - interest))
  /\ currentRightOfUseAsset carried =
       max (of_Z 0)
         (currentRightOfUseAsset before - monthlyAmortizationExpense calc)
  /\ endingLeaseLiability row = round2 (currentLeaseLiability carried)
  /\ rightOfUseAssetBalance row = round2 (currentRightOfUseAsset carried).
Proof.
  intros calc before carried interest Hrow Hrow'.
  apply schedule_nth_inv in Hrow, Hrow'.
  assert (Hc : carried =
               snd (scheduleBody ld calc (1 + Z.of_nat i)%Z before))
    by apply balancesAfter_succ.
  split; [exact Hrow'|].
  rewrite Hc, Hrow.
  repeat split; reflexivity.
Qed.


(** C6: in every schedule, the stored beginning lease liability of a row
    equals the stored ending lease liability of the row before it. *)
Theorem schedule_liability_chains
  (ld : LeaseData) (i : nat) (row next : MonthlySchedule) :
  nth_error (generateAmortizationSchedule ld) i = Some row ->
  nth_error (generateAmortizationSchedule ld) (S i) = Some next ->
  beginningLeaseLiability next = endingLeaseLiability row.
Proof.
  intros Hrow Hnext.
  apply schedule_nth_inv in Hrow, Hnext.
  rewrite Hrow, Hnext.
  rewrite scheduleBody_beginning, scheduleBody_ending.
  now rewrite balancesAfter_succ.
Qed.



(** C10: [monthlyInterestExpense] and [monthlyLeaseLiabilityReduction] of the
    record returned by [calculateLeaseMetrics] are the constant 0. *)
Theorem metrics_placeholders_are_zero (ld : LeaseData) :
  monthlyInterestExpense (calculateLeaseMetrics ld) = of_Z 0
  /\ monthlyLeaseLiabilityReduction (calculateLeaseMetrics ld) = of_Z 0.
Proof.
  unfold calculateLeaseMetrics.
  cbn [monthlyInterestExpense monthlyLeaseLiabilityReduction].
  split; reflexivity.
Qed.

End ShapeClaims.

(** * Properties of the amounts, in exact arithmetic *)

(** *** The operations of [QNumber] *)

Ltac q_ops :=
  cbv beta iota delta
    [round2 add sub mul div max round pow of_Z is_zero gtb truthy QNumber
     Qround_half_up].


#[export] Instance Qround_half_up_comp : Proper (Qeq ==> Qeq) Qround_half_up.
Proof.
  intros x y Hxy. unfold Qround_half_up. now rewrite Hxy.
Qed.

Lemma round2_Q (x : Q) :
  @round2 QNumber x == Qround_half_up (x * 100) / 100.
Proof.
  q_ops. now rewrite !Qred_correct.
Qed.

#[export] Instance round2_comp : Proper (Qeq ==> Qeq) (@round2 QNumber).
Proof.
  intros x y Hxy. rewrite !round2_Q. now rewrite Hxy.
Qed.


(** A rounded amount is a whole number of cents. *)
Lemma round2_cents (x : Q) :
  @round2 QNumber x == inject_Z (Qfloor (x * 100 + (1 # 2))) / 100.
Proof.
  rewrite round2_Q. reflexivity.
Qed.



Lemma round2_nonneg (x : Q) : 0 <= x -> 0 <= @round2 QNumber x.
Proof.
  intros Hx. rewrite round2_cents.
  apply Qle_shift_div_l; [lra|].
  rewrite Qmult_0_l.
  change 0 with (inject_Z 0). rewrite <- Zle_Qle.
  rewrite <- (Qfloor_Z 0). apply Qfloor_resp_le.
  change (inject_Z 0) with 0. lra.
Qed.


Lemma Qmax0_zero (x : Q) :
  0 <= Qmax0 0 x
  /\ (x <= 0 -> Qmax0 0 x == 0)
  /\ (0 <= x -> Qmax0 0 x == x).
Proof.
  unfold Qmax0.
  destruct (Qle_bool 0 x) eqn:E.
  - apply Qle_bool_iff in E. repeat split; intros; lra.
  - assert (~ 0 <= x) by (rewrite <- Qle_bool_iff; congruence).
    repeat split; intros; lra.
Qed.





(** *** Totals of account entries *)





(** *** Validated input *)


(** *** Balance of the journal entries *)





(** *** The liability along the schedule *)









#[export] Instance geometricSum_comp :
  Proper (Qeq ==> eq ==> Qeq) geometricSum.
Proof.
  intros g g' Hg n n' <-.
  induction n as [|n IH]; cbn [geometricSum]; [reflexivity|].
  now rewrite IH, Hg.
Qed.



(** * The claims on concrete leases *)

(** C1, as worded, fails: on the same-month lease the term is 0 and both
    functions return (the schedule is empty) instead of raising
    DegenerateTermError; with a rate of 200% both return instead of raising
    InvalidRateError. *)
Lemma degenerate_input_returns :
  (calculateLeaseTerm (leaseStartDate sameMonthLease)
     (leaseEndDate sameMonthLease) <= 0)%Z
  /\ run_calculateLeaseMetrics sameMonthLease <> Raises DegenerateTermError
  /\ run_generateAmortizationSchedule sameMonthLease = Returns []
  /\ 1 < discountRate rate200Lease
  /\ run_calculateLeaseMetrics rate200Lease <> Raises InvalidRateError
  /\ run_generateAmortizationSchedule rate200Lease <> Raises InvalidRateError.
Proof.
  split; [vm_compute; discriminate|].
  split; [unfold run_calculateLeaseMetrics; discriminate|].
  split; [reflexivity|].
  split; [reflexivity|].
  split; [unfold run_calculateLeaseMetrics; discriminate|].
  unfold run_generateAmortizationSchedule, run_calculateLeaseMetrics.
  discriminate.
Qed.

Lemma engine_returns_on_same_month_lease :
  (calculateLeaseTerm (leaseStartDate sameMonthLease)
     (leaseEndDate sameMonthLease) <= 0)%Z
  /\ run_generateAmortizationSchedule sameMonthLease = Returns []
  /\ totalLeaseTerm (calculateLeaseMetrics sameMonthLease) = 0%Z.
Proof.
  assert (Hterm : (calculateLeaseTerm (leaseStartDate sameMonthLease)
                     (leaseEndDate sameMonthLease) <= 0)%Z)
    by (vm_compute; discriminate).
  destruct (engine_returns_on_every_input sameMonthLease)
    as (_ & Hrun & Ht & Hempty).
  split; [exact Hterm|].
  split.
  - rewrite Hrun, (Hempty Hterm). reflexivity.
  - rewrite Ht. reflexivity.
Defined.

(** C2, as worded, fails: on the test suite's lease the liability that the
    second iteration starts from is 158200.8117916..., not the 158200.81
    stored as the first row's ending liability.  The difference shows in the
    schedule: the third row ends at 149501.07, where a loop that rounds what
    it carries forward ends at 149501.06. *)
Lemma carried_liability_differs_from_stored :
  let calc := calculateLeaseMetrics sampleLeaseData in
  let carried := balancesAfter sampleLeaseData calc 1 1%Z (initialBalances calc) in
  option_map endingLeaseLiability
    (nth_error (generateAmortizationSchedule sampleLeaseData) 0)
  = Some (15820081 # 100)
  /\ currentLeaseLiability carried = 3796819483 # 24000
  /\ ~ currentLeaseLiability carried == 15820081 # 100
  /\ option_map endingLeaseLiability
       (nth_error (generateAmortizationSchedule sampleLeaseData) 2)
     = Some (14950107 # 100)
  /\ option_map endingLeaseLiability
       (nth_error (generateAmortizationSchedule_spec sampleLeaseData) 2)
     = Some (7475053 # 50).
Proof.
  cbv zeta.
  split; [vm_compute; reflexivity|].
  split; [vm_compute; reflexivity|].
  split; [intros H; vm_compute in H; discriminate H|].
  split; vm_compute; reflexivity.
Qed.

Lemma carried_balances_on_two_month_lease :
  let calc := calculateLeaseMetrics twoMonthLease in
  let before := initialBalances calc in
  let row := fst (scheduleBody twoMonthLease calc 1%Z before) in
  let carried := snd (scheduleBody twoMonthLease calc 1%Z before) in
  let row' := fst (scheduleBody twoMonthLease calc 2%Z carried) in
  nth_error (generateAmortizationSchedule twoMonthLease) 0 = Some row
  /\ nth_error (generateAmortizationSchedule twoMonthLease) 1 = Some row'
  /\ endingLeaseLiability row = round2 (currentLeaseLiability carried)
  /\ currentLeaseLiability carried = 23900437 # 4800
  /\ endingLeaseLiability row = 248963 # 50.
Proof.
  cbv zeta.
  split; [reflexivity|].
  split; [reflexivity|].
  split; [|split; vm_compute; reflexivity].
  refine (proj1 (proj2 (proj2 (proj2
    (carried_balances_are_unrounded twoMonthLease 0 _ _ _ _))))).
  - reflexivity.
  - reflexivity.
Defined.







Lemma schedule_liability_chains_on_two_month_lease :
  let calc := calculateLeaseMetrics twoMonthLease in
  let row := fst (scheduleBody twoMonthLease calc 1%Z (initialBalances calc)) in
  let carried := snd (scheduleBody twoMonthLease calc 1%Z (initialBalances calc)) in
  let next := fst (scheduleBody twoMonthLease calc 2%Z carried) in
  nth_error (generateAmortizationSchedule twoMonthLease) 0 = Some row
  /\ nth_error (generateAmortizationSchedule twoMonthLease) 1 = Some next
  /\ beginningLeaseLiability next = endingLeaseLiability row
  /\ endingLeaseLiability row = 248963 # 50.
Proof.
  cbv zeta.
  split; [reflexivity|].
  split; [reflexivity|].
  split; [|vm_compute; reflexivity].
  apply (schedule_liability_chains twoMonthLease 0); reflexivity.
Defined.

(** * The concrete leases in binary64 arithmetic *)

Module Binary64Checks.

Import Binary64.
Local Open Scope float_scope.

(** The figures the repository's test suite expects. *)
Lemma test_suite_metrics :
  let calc := calculateLeaseMetrics sampleLeaseData in
  totalLeaseTerm calc = 35%Z
  /\ presentValueOfLeasePayments calc = hundredths 16252363
  /\ initialLeaseLiability calc = hundredths 16252363
  /\ initialRightOfUseAsset calc = hundredths 16202363
  /\ monthlyAmortizationExpense calc = hundredths 462925
  /\ calculatePresentValue 5000 (hundredths 5) 36 = hundredths 16682851
  /\ calculatePresentValue 5000 0 36 = 180000.
Proof.
  cbv zeta. repeat split; vm_compute; reflexivity.
Qed.

(** The balances carried into the second iteration are not the rounded ones
    stored in the first row, and the third row ends one cent above what a
    loop that rounds what it carries forward gives. *)
Lemma carried_liability_differs_from_stored_binary64 :
  let calc := calculateLeaseMetrics sampleLeaseData in
  let carried := balancesAfter sampleLeaseData calc 1 1%Z (initialBalances calc) in
  option_map endingLeaseLiability
    (nth_error (generateAmortizationSchedule sampleLeaseData) 0)
  = Some (hundredths 15820081)
  /\ PrimFloat.ltb (hundredths 15820081) (currentLeaseLiability carried) = true
  /\ option_map endingLeaseLiability
       (nth_error (generateAmortizationSchedule sampleLeaseData) 2)
     = Some (hundredths 14950107)
  /\ option_map endingLeaseLiability
       (nth_error (generateAmortizationSchedule_spec sampleLeaseData) 2)
     = Some (hundredths 14950106).
Proof.
  cbv zeta. repeat split; vm_compute; reflexivity.
Qed.

(** The four-year lease ends with a liability of 0.19. *)
Lemma four_year_lease_ends_above_a_dime_binary64 :
  option_map endingLeaseLiability
    (lastRow (generateAmortizationSchedule fourYearLease))
  = Some (hundredths 19).
Proof. vm_compute; reflexivity. Qed.

(** Thirty years at 12% end with a liability of 0.17. *)
Lemma thirty_year_lease_ends_above_a_dime_binary64 :
  List.length (generateAmortizationSchedule thirtyYearLease) = 360%nat
  /\ option_map endingLeaseLiability
       (lastRow (generateAmortizationSchedule thirtyYearLease))
     = Some (hundredths 17).
Proof. split; vm_compute; reflexivity. Qed.

(** A lease of 0 months: no row, and no error. *)
Lemma same_month_lease_binary64 :
  generateAmortizationSchedule (plainLease 5000 (hundredths 5) 2024 1 31) = [].
Proof. reflexivity. Qed.

End Binary64Checks.

(** * Further properties of the engine *)

Section MoreShape.

Context {N : Number}.
Local Open Scope num_scope.

(** X1: the schedule has one row per month of the term (none when the term is
    zero or negative), and there are two monthly journal entries per month. *)
Theorem schedule_has_one_row_per_month (ld : LeaseData) :
  List.length (generateAmortizationSchedule ld)
  = Z.to_nat (calculateLeaseTerm (leaseStartDate ld) (leaseEndDate ld))
  /\ List.length (generateMonthlyAmortizationEntries ld)
     = (2 * Z.to_nat (calculateLeaseTerm (leaseStartDate ld) (leaseEndDate ld)))%nat.
Proof.
  assert (Hlen : List.length (generateAmortizationSchedule ld)
                 = Z.to_nat (calculateLeaseTerm (leaseStartDate ld)
                               (leaseEndDate ld))).
  { unfold generateAmortizationSchedule. now rewrite scheduleLoop_length. }
  split; [exact Hlen|].
  rewrite monthly_entries_flat_map, pairs_length. now rewrite Hlen.
Qed.

(** X2: the rows are numbered 1, 2, ... in order; every row carries the
    lease's monthly payment unchanged, and the same right-of-use amortization:
    the monthly amortization expense of the metrics, rounded. *)
Theorem schedule_rows_are_numbered_and_level
  (ld : LeaseData) (i : nat) (row : MonthlySchedule) :
  nth_error (generateAmortizationSchedule ld) i = Some row ->
  month row = (Z.of_nat i + 1)%Z
  /\ leasePayment row = monthlyPayment ld
  /\ rightOfUseAssetAmortization row
     = round2 (monthlyAmortizationExpense (calculateLeaseMetrics ld)).
Proof.
  intros Hrow. apply schedule_nth_inv in Hrow. rewrite Hrow.
  unfold scheduleBody.
  cbn [fst month leasePayment rightOfUseAssetAmortization].
  repeat split; try reflexivity. lia.
Qed.

End MoreShape.

(** ** Amounts, in exact arithmetic *)




Lemma max_zero_Q (x : Q) : @max QNumber (@of_Z QNumber 0) x = Qmax0 0 x.
Proof. reflexivity. Qed.

(** X3: no row of a schedule shows a negative ending lease liability or a
    negative right-of-use asset balance, whatever the lease terms. *)
Theorem schedule_balances_are_not_negative
  (ld : @LeaseData QNumber) (row : MonthlySchedule) :
  In row (generateAmortizationSchedule ld) ->
  0 <= endingLeaseLiability row /\ 0 <= rightOfUseAssetBalance row.
Proof.
  intros Hin. apply In_nth_error in Hin. destruct Hin as [i Hi].
  apply schedule_nth_inv in Hi. rewrite Hi.
  rewrite scheduleBody_ending, scheduleBody_rou_balance, scheduleBody_carried.
  cbn [currentLeaseLiability currentRightOfUseAsset].
  rewrite !max_zero_Q.
  split; apply round2_nonneg; apply Qmax0_zero.
Qed.

Lemma orZero_omitted (x : option Q) : omittedOrZero x -> @orZero QNumber x == 0.
Proof.
  destruct x as [v|]; cbn [omittedOrZero orZero]; intros Hx.
  - q_ops. apply Qeq_bool_iff in Hx. rewrite Hx. reflexivity.
  - reflexivity.
Qed.

(** X4: when prepaid rent, initial direct costs and lease incentives are all
    left out or 0, the initial right-of-use asset equals the initial lease
    liability. *)
Theorem right_of_use_asset_equals_liability_without_extras
  (ld : @LeaseData QNumber) :
  omittedOrZero (prepaidRent ld) ->
  omittedOrZero (initialDirectCosts ld) ->
  omittedOrZero (leaseIncentives ld) ->
  initialRightOfUseAsset (calculateLeaseMetrics ld)
  == initialLeaseLiability (calculateLeaseMetrics ld).
Proof.
  intros Hpre Hidc Hinc.
  apply orZero_omitted in Hpre, Hidc, Hinc.
  unfold calculateLeaseMetrics.
  cbn [initialRightOfUseAsset initialLeaseLiability].
  apply round2_comp.
  set (pv := calculatePresentValue _ _ _).
  q_ops. rewrite !Qred_correct, Hpre, Hidc, Hinc. ring.
Qed.











(** ** The engine and the validation layer together *)





(** * Properties of the API routes *)

Lemma substring_whole (s : string) : substring 0 (String.length s) s = s.
Proof.
  induction s as [|c s IH]; [reflexivity|].
  cbn [String.length substring]. now rewrite IH.
Qed.

Lemma prefix_nil (s : string) : prefix "" s = true.
Proof. now destruct s. Qed.

Lemma prefix_append (s t : string) : prefix s (String.append s t) = true.
Proof.
  induction s as [|c s IH]; cbn [String.append prefix].
  - apply prefix_nil.
  - destruct (Ascii.ascii_dec c c) as [_|Hne]; [exact IH|now elim Hne].
Qed.

(** What stands after the leading "Bearer " is read back whole, as long as it
    holds no further "Bearer ". *)
Lemma splitSecond_bearer (t : string) :
  index 0 "Bearer " t = None ->
  splitSecond "Bearer " (String.append "Bearer " t) = t.
Proof.
  intros Hidx. unfold splitSecond.
  cbn [String.append String.length Nat.sub substring].
  rewrite Nat.sub_0_r, substring_whole, Hidx. reflexivity.
Qed.

Section RouteProperties.

Context {N : Number}.
Variable verifyIdToken : string -> option string.

(** X12: the caller's token travels whole through the authorization header:
    [verifyAuth] on the header "Bearer " followed by a token hands exactly
    that token to [verifyIdToken], provided the token itself does not contain
    "Bearer ". *)
Theorem verifyAuth_reads_the_bearer_token (token : string) :
  index 0 "Bearer " token = None ->
  verifyAuth verifyIdToken (Some (String.append "Bearer " token))
  = verifyIdToken token.
Proof.
  intros Hidx. unfold verifyAuth.
  rewrite (splitSecond_bearer token Hidx).
  rewrite prefix_append. reflexivity.
Qed.

(** *** Who gets an answer *)

Ltac route_cases :=
  repeat match goal with
         | |- context [match verifyAuth ?v ?a with _ => _ end] =>
             let E := fresh "Eauth" in destruct (verifyAuth v a) eqn:E
         | |- context [match getLease ?d ?n with _ => _ end] =>
             let E := fresh "Elease" in destruct (getLease d n) eqn:E
         | |- context [match entriesWhereLeaseId ?d ?n with _ => _ end] =>
             let E := fresh "Estored" in destruct (entriesWhereLeaseId d n) eqn:E
         | |- context [if (?a =? ?b)%string then _ else _] =>
             let E := fresh "Eeq" in destruct (a =? b)%string eqn:E
         | |- context [if negb (?a =? ?b)%string then _ else _] =>
             let E := fresh "Eeq" in destruct (a =? b)%string eqn:E;
             cbn [negb]
         | |- context [match ?x with Some _ => _ | None => _ end] =>
             is_var x; destruct x
         end.

(** X13: the journal-entry routes answer with entries only to the owner of
    the lease: a 200 from GET or POST means the lease named in the request
    exists and its [userId] is the uid of the caller's token.  Every other
    answer leaves both collections as they were. *)
Theorem journal_entry_routes_serve_the_owner_only
  (authHeader leaseIdParam : option string) (body : option (option string))
  (newIds clock : nat -> string) (db : Firestore) :
  (forall entries db',
      journalEntries_GET verifyIdToken authHeader leaseIdParam newIds clock db
      = (Ok entries, db') ->
      exists name leaseData,
        leaseIdParam = Some name
        /\ getLease db name = Some leaseData
        /\ verifyAuth verifyIdToken authHeader = Some (userId leaseData))
  /\ (forall entries db',
        journalEntries_POST verifyIdToken authHeader body newIds clock db
        = (Ok entries, db') ->
        exists name leaseData,
          body = Some (Some name)
          /\ getLease db name = Some leaseData
          /\ verifyAuth verifyIdToken authHeader = Some (userId leaseData))
  /\ (forall response db',
        journalEntries_GET verifyIdToken authHeader leaseIdParam newIds clock db
        = (response, db') ->
        (forall entries, response <> Ok entries) -> db' = db)
  /\ (forall response db',
        journalEntries_POST verifyIdToken authHeader body newIds clock db
        = (response, db') ->
        (forall entries, response <> Ok entries) -> db' = db).
Proof.
  unfold journalEntries_GET, journalEntries_POST.
  repeat split.
  - intros entries db'. route_cases; intros H; try discriminate H.
    + apply String.eqb_eq in Eeq0. subst. eauto.
    + apply String.eqb_eq in Eeq0. subst. eauto.
  - intros entries db'. route_cases; intros H; try discriminate H.
    apply String.eqb_eq in Eeq0. subst. eauto.
  - intros response db'. route_cases; intros H Hno;
      injection H as <- <-;
      first [reflexivity | exfalso; eapply Hno; reflexivity].
  - intros response db'. route_cases; intros H Hno;
      injection H as <- <-;
      first [reflexivity | exfalso; eapply Hno; reflexivity].
Qed.

(** *** What gets generated and stored *)

Lemma stampEntries_data (newIds clock : nat -> string) (k : nat)
  (entries : list JournalEntry) :
  map docData (stampEntries newIds clock k entries) = entries.
Proof.
  revert k. induction entries as [|e rest IH]; intros k;
    cbn [stampEntries map docData]; [reflexivity|].
  now rewrite IH.
Qed.

Lemma stampEntries_length (newIds clock : nat -> string) (k : nat)
  (entries : list JournalEntry) :
  List.length (stampEntries newIds clock k entries) = List.length entries.
Proof.
  rewrite <- (stampEntries_data newIds clock k entries) at 2.
  now rewrite length_map.
Qed.

(** Every generated entry is tagged with the [id] of the lease data, or with
    the empty string when there is none. *)
Lemma allEntries_tagged (ld : LeaseData) (e : JournalEntry) :
  In e (allEntries ld) -> leaseId e = idOrEmpty (id ld).
Proof.
  unfold allEntries. intros [He|He].
  - now subst e.
  - rewrite monthly_entries_flat_map in He.
    apply in_flat_map in He. destruct He as (row & _ & [He|[He|[]]]);
      now subst e.
Qed.

Lemma allEntries_length (name : string) (ld : LeaseData) :
  List.length (allEntries (withId name ld))
  = S (2 * Z.to_nat (calculateLeaseTerm (leaseStartDate ld) (leaseEndDate ld))).
Proof.
  unfold allEntries. cbn [List.length]. f_equal.
  rewrite monthly_entries_flat_map, pairs_length.
  unfold generateAmortizationSchedule. rewrite scheduleLoop_length.
  reflexivity.
Qed.

Lemma filter_none {A : Type} (f : A -> bool) (l : list A) :
  (forall x, In x l -> f x = false) -> filter f l = [].
Proof.
  induction l as [|x l IH]; intros H; cbn [filter]; [reflexivity|].
  rewrite (H x (or_introl eq_refl)). apply IH.
  intros y Hy. apply H. now right.
Qed.

Lemma filter_all {A : Type} (f : A -> bool) (l : list A) :
  (forall x, In x l -> f x = true) -> filter f l = l.
Proof.
  induction l as [|x l IH]; intros H; cbn [filter]; [reflexivity|].
  rewrite (H x (or_introl eq_refl)). f_equal. apply IH.
  intros y Hy. apply H. now right.
Qed.

Lemma filter_filter_other {A : Type} (key : A -> string) (name other : string)
  (l : list A) :
  other <> name ->
  filter (fun d => (key d =? other)%string)
    (filter (fun d => negb (key d =? name)%string) l)
  = filter (fun d => (key d =? other)%string) l.
Proof.
  intros Hne.
  induction l as [|x l IH]; cbn [filter]; [reflexivity|].
  destruct (key x =? name)%string eqn:En; cbn [negb filter].
  - apply String.eqb_eq in En.
    assert (Eo : (key x =? other)%string = false)
      by (apply String.eqb_neq; congruence).
    now rewrite Eo.
  - destruct (key x =? other)%string; now rewrite IH.
Qed.

(** The documents a generation writes for the lease named [name]. *)
Lemma generated_entries_are_tagged (name : string) (ld : LeaseData)
  (newIds clock : nat -> string) (d : StoredEntry) :
  id ld = None ->
  In d (stampEntries newIds clock 0 (allEntries (withId name ld))) ->
  leaseId (docData d) = name.
Proof.
  intros Hid Hin.
  apply (in_map docData) in Hin. rewrite stampEntries_data in Hin.
  apply allEntries_tagged in Hin. rewrite Hin.
  unfold withId. cbn [id]. now rewrite Hid.
Qed.

(** X14: a GET by the owner of a lease that has no stored entry generates the
    initial recognition entry followed by the monthly entries, 1 + 2 x term
    documents in all, adds exactly these to the [journalEntries] collection
    and answers with them; when the lease data holds no [id] of its own, every
    one of them is tagged with the lease's document name. *)
Theorem journalEntries_GET_generates_once
  (authHeader : option string) (name : string) (leaseData : LeaseData)
  (newIds clock : nat -> string) (db : Firestore) :
  verifyAuth verifyIdToken authHeader = Some (userId leaseData) ->
  name <> ""%string ->
  getLease db name = Some leaseData ->
  entriesWhereLeaseId db name = [] ->
  exists generated : list StoredEntry,
    journalEntries_GET verifyIdToken authHeader (Some name) newIds clock db
    = (Ok generated,
       mkFirestore (leasesCollection db)
         (journalEntriesCollection db ++ generated))
    /\ map docData generated = allEntries (withId name leaseData)
    /\ List.length generated
       = S (2 * Z.to_nat (calculateLeaseTerm (leaseStartDate leaseData)
                            (leaseEndDate leaseData)))
    /\ (id leaseData = None ->
        forall d, In d generated -> leaseId (docData d) = name).
Proof.
  intros Hauth Hname Hlease Hnone.
  exists (stampEntries newIds clock 0 (allEntries (withId name leaseData))).
  split.
  - unfold journalEntries_GET.
    rewrite Hauth, Hlease, Hnone, String.eqb_refl.
    apply String.eqb_neq in Hname. rewrite Hname. reflexivity.
  - split; [apply stampEntries_data|].
    split; [rewrite stampEntries_length; apply allEntries_length|].
    intros Hid d Hd. now apply (generated_entries_are_tagged name leaseData newIds clock).
Qed.

(** *** Sorting by entry date *)

Lemma date_ltb_asym (a b : JsDate) : date_ltb a b = true -> date_ltb b a = false.
Proof.
  unfold date_ltb. intros H.
  destruct (Z.ltb_spec (getFullYear a) (getFullYear b)),
           (Z.ltb_spec (getFullYear b) (getFullYear a)),
           (Z.eqb_spec (getFullYear a) (getFullYear b)),
           (Z.eqb_spec (getFullYear b) (getFullYear a)),
           (Z.ltb_spec (getMonth a) (getMonth b)),
           (Z.ltb_spec (getMonth b) (getMonth a)),
           (Z.eqb_spec (getMonth a) (getMonth b)),
           (Z.eqb_spec (getMonth b) (getMonth a)),
           (Z.ltb_spec (getDate a) (getDate b)),
           (Z.ltb_spec (getDate b) (getDate a));
    cbn in *; try reflexivity; try discriminate; lia.
Qed.

Lemma insertByDate_perm (x : StoredEntry) (l : list StoredEntry) :
  Permutation (insertByDate x l) (x :: l).
Proof.
  induction l as [|y l IH]; cbn [insertByDate]; [reflexivity|].
  destruct (entryDateBefore x y); [reflexivity|].
  rewrite IH. apply perm_swap.
Qed.

Lemma insertByDate_sorted (x : StoredEntry) (l : list StoredEntry) :
  Sorted notAfter l -> Sorted notAfter (insertByDate x l).
Proof.
  induction l as [|y l IH]; intros Hs; cbn [insertByDate].
  - repeat constructor.
  - destruct (entryDateBefore x y) eqn:E.
    + constructor; [exact Hs|]. constructor.
      unfold notAfter. now apply date_ltb_asym.
    + inversion Hs as [|? ? Hs' Hhd]; subst.
      constructor; [now apply IH|].
      destruct l as [|z l]; cbn [insertByDate].
      * constructor. exact E.
      * destruct (entryDateBefore x z); constructor;
          [exact E|now inversion Hhd].
Qed.

Lemma sortByEntryDate_spec (l : list StoredEntry) :
  Permutation (sortByEntryDate l) l /\ Sorted notAfter (sortByEntryDate l).
Proof.
  unfold sortByEntryDate.
  assert (H : forall acc,
             Sorted notAfter acc ->
             Permutation (fold_left (fun sorted x => insertByDate x sorted) l acc)
               (l ++ acc)
             /\ Sorted notAfter
                  (fold_left (fun sorted x => insertByDate x sorted) l acc)).
  { induction l as [|x l IH]; intros acc Hacc; cbn [fold_left app].
    - split; [reflexivity|exact Hacc].
    - destruct (IH (insertByDate x acc) (insertByDate_sorted x acc Hacc))
        as [Hp Hs].
      split; [|exact Hs].
      rewrite Hp, insertByDate_perm. symmetry. apply Permutation_middle. }
  destruct (H [] (Sorted_nil _)) as [Hp Hs].
  rewrite app_nil_r in Hp. now split.
Qed.

(** X15: a GET by the owner of a lease that has stored entries writes
    nothing and generates nothing: it answers with the stored entries of that
    lease, all of them and no other, in the order of their entry dates. *)
Theorem journalEntries_GET_returns_stored_entries
  (authHeader : option string) (name : string) (leaseData : LeaseData)
  (newIds clock : nat -> string) (db : Firestore) :
  verifyAuth verifyIdToken authHeader = Some (userId leaseData) ->
  name <> ""%string ->
  getLease db name = Some leaseData ->
  entriesWhereLeaseId db name <> [] ->
  exists entries : list StoredEntry,
    journalEntries_GET verifyIdToken authHeader (Some name) newIds clock db
    = (Ok entries, db)
    /\ Permutation entries (entriesWhereLeaseId db name)
    /\ Sorted notAfter entries.
Proof.
  intros Hauth Hname Hlease Hsome.
  exists (sortByEntryDate (entriesWhereLeaseId db name)).
  split; [|apply sortByEntryDate_spec].
  unfold journalEntries_GET.
  rewrite Hauth, Hlease, String.eqb_refl.
  apply String.eqb_neq in Hname. rewrite Hname. cbn [negb].
  destruct (entriesWhereLeaseId db name); [now elim Hsome|reflexivity].
Qed.

(** X16: a regeneration (POST) by the owner replaces the stored entries of
    the lease: afterwards the collection holds, for that lease, exactly the
    freshly generated documents (initial entry, then the monthly entries), the
    entries of every other lease are as before, and the leases are untouched.
    The answer is the generated documents in date order. *)
Theorem journalEntries_POST_replaces_the_entries
  (authHeader : option string) (name : string) (leaseData : LeaseData)
  (newIds clock : nat -> string) (db : Firestore) :
  verifyAuth verifyIdToken authHeader = Some (userId leaseData) ->
  name <> ""%string ->
  getLease db name = Some leaseData ->
  id leaseData = None ->
  exists (entries : list StoredEntry) (db' : Firestore),
    journalEntries_POST verifyIdToken authHeader (Some (Some name))
      newIds clock db = (Ok entries, db')
    /\ entriesWhereLeaseId db' name
       = stampEntries newIds clock 0 (allEntries (withId name leaseData))
    /\ (forall other, other <> name ->
        entriesWhereLeaseId db' other = entriesWhereLeaseId db other)
    /\ leasesCollection db' = leasesCollection db
    /\ Permutation entries (entriesWhereLeaseId db' name)
    /\ Sorted notAfter entries.
Proof.
  intros Hauth Hname Hlease Hid.
  set (generated := stampEntries newIds clock 0 (allEntries (withId name leaseData))).
  set (kept := filter (fun d => negb (leaseId (docData d) =? name)%string)
                 (journalEntriesCollection db)).
  assert (Htag : forall d, In d generated -> leaseId (docData d) = name)
    by (intros d; now apply generated_entries_are_tagged).
  assert (Hmine : entriesWhereLeaseId
                    (mkFirestore (leasesCollection db) (kept ++ generated)) name
                  = generated).
  { unfold entriesWhereLeaseId. cbn [journalEntriesCollection].
    rewrite filter_app.
    rewrite (filter_none _ kept), (filter_all _ generated); [reflexivity| |].
    - intros d Hd. apply String.eqb_eq. now apply Htag.
    - intros d Hd. apply filter_In in Hd. destruct Hd as [_ Hd].
      now apply negb_true_iff in Hd. }
  exists (sortByEntryDate generated),
         (mkFirestore (leasesCollection db) (kept ++ generated)).
  split.
  { unfold journalEntries_POST.
    rewrite Hauth, Hlease, String.eqb_refl.
    apply String.eqb_neq in Hname. rewrite Hname. reflexivity. }
  split; [exact Hmine|].
  split.
  { intros other Hother.
    unfold entriesWhereLeaseId. cbn [journalEntriesCollection].
    rewrite filter_app, (filter_none _ generated).
    - rewrite app_nil_r.
      apply (filter_filter_other (fun d => leaseId (docData d))).
      exact Hother.
    - intros d Hd. apply String.eqb_neq. rewrite (Htag d Hd). congruence. }
  split; [reflexivity|].
  rewrite Hmine. apply sortByEntryDate_spec.
Qed.

Lemma find_filter_other {A : Type} (key : A -> string) (name other : string)
  (l : list A) :
  other <> name ->
  find (fun d => (key d =? other)%string)
    (filter (fun d => negb (key d =? name)%string) l)
  = find (fun d => (key d =? other)%string) l.
Proof.
  intros Hne.
  induction l as [|x l IH]; cbn [filter find]; [reflexivity|].
  destruct (key x =? name)%string eqn:En; cbn [negb find].
  - apply String.eqb_eq in En.
    assert (Eo : (key x =? other)%string = false)
      by (apply String.eqb_neq; congruence).
    now rewrite Eo.
  - destruct (key x =? other)%string; [reflexivity|exact IH].
Qed.

Lemma find_filter_same {A : Type} (key : A -> string) (name : string)
  (l : list A) :
  find (fun d => (key d =? name)%string)
    (filter (fun d => negb (key d =? name)%string) l) = None.
Proof.
  induction l as [|x l IH]; cbn [filter find]; [reflexivity|].
  destruct (key x =? name)%string eqn:En; cbn [negb find]; [exact IH|].
  now rewrite En.
Qed.

(** X17: DELETE of a lease answers 200 only to its owner, and then removes
    the lease together with all of its journal entries and nothing else: the
    lease can no longer be read, no entry carries its name, and every other
    lease and the entries of every other lease are as before.  Any other
    answer leaves both collections as they were. *)
Theorem lease_DELETE_removes_the_lease_and_its_entries
  (authHeader : option string) (name : string) (db : Firestore) :
  let response := fst (lease_DELETE verifyIdToken authHeader name db) in
  let db' := snd (lease_DELETE verifyIdToken authHeader name db) in
  (response = Ok tt ->
   (exists leaseData,
       getLease db name = Some leaseData
       /\ verifyAuth verifyIdToken authHeader = Some (userId leaseData))
   /\ getLease db' name = None
   /\ entriesWhereLeaseId db' name = []
   /\ forall other, other <> name ->
        getLease db' other = getLease db other
        /\ entriesWhereLeaseId db' other = entriesWhereLeaseId db other)
  /\ (response <> Ok tt -> db' = db).
Proof.
  cbv zeta. unfold lease_DELETE.
  destruct (verifyAuth verifyIdToken authHeader) as [uid|] eqn:Hauth;
    cbn [fst snd]; [|split; [discriminate|reflexivity]].
  destruct (getLease db name) as [leaseData|] eqn:Hlease;
    cbn [fst snd]; [|split; [discriminate|reflexivity]].
  destruct (userId leaseData =? uid)%string eqn:Huid;
    cbn [negb fst snd]; [|split; [discriminate|reflexivity]].
  apply String.eqb_eq in Huid. subst uid.
  split; [intros _|intros H; now elim H].
  split; [now exists leaseData|].
  split.
  { unfold getLease. cbn [leasesCollection].
    now rewrite (find_filter_same (fun d : string * LeaseData => fst d)). }
  split.
  { unfold entriesWhereLeaseId. cbn [journalEntriesCollection].
    apply filter_none. intros d Hd. apply filter_In in Hd.
    destruct Hd as [_ Hd]. now apply negb_true_iff in Hd. }
  intros other Hother. split.
  - unfold getLease. cbn [leasesCollection].
    now rewrite (find_filter_other (fun d : string * LeaseData => fst d)).
  - unfold entriesWhereLeaseId. cbn [journalEntriesCollection].
    now apply (filter_filter_other (fun d => leaseId (docData d))).
Qed.

(** X18: the lease routes show a caller only leases of their own: every lease
    in the answer of GET /api/leases, and the lease in a 200 of
    GET /api/leases/[id], has the uid of the caller's token as its [userId]. *)
Theorem lease_reads_show_own_leases_only
  (authHeader : option string) (name : string) (db : Firestore) :
  (forall leases,
      leases_GET verifyIdToken authHeader db = Ok leases ->
      exists uid,
        verifyAuth verifyIdToken authHeader = Some uid
        /\ forall lease, In lease leases -> userId lease = uid)
  /\ (forall lease,
        lease_GET verifyIdToken authHeader name db = Ok lease ->
        verifyAuth verifyIdToken authHeader = Some (userId lease)
        /\ exists leaseData,
             getLease db name = Some leaseData /\ lease = withId name leaseData).
Proof.
  unfold leases_GET, lease_GET.
  destruct (verifyAuth verifyIdToken authHeader) as [uid|];
    [|split; intros ? H; discriminate H].
  split.
  - intros leases H. injection H as <-. exists uid. split; [reflexivity|].
    intros lease Hin. apply in_map_iff in Hin.
    destruct Hin as (d & <- & Hd). apply filter_In in Hd.
    destruct Hd as [_ Hd]. apply String.eqb_eq in Hd. exact Hd.
  - intros lease H.
    destruct (getLease db name) as [leaseData|]; [|discriminate H].
    destruct (userId leaseData =? uid)%string eqn:Huid;
      cbn [negb] in H; [|discriminate H].
    injection H as <-. apply String.eqb_eq in Huid.
    split; [cbn [withId userId]; now rewrite Huid|].
    now exists leaseData.
Qed.

End RouteProperties.

(** * The further properties on concrete inputs *)

Lemma schedule_rows_on_two_month_lease :
  let calc := calculateLeaseMetrics twoMonthLease in
  let carried := snd (scheduleBody twoMonthLease calc 1%Z (initialBalances calc)) in
  let row := fst (scheduleBody twoMonthLease calc 2%Z carried) in
  nth_error (generateAmortizationSchedule twoMonthLease) 1 = Some row
  /\ month row = 2%Z
  /\ leasePayment row = 5000.
Proof.
  cbv zeta.
  split; [reflexivity|].
  destruct (schedule_rows_are_numbered_and_level twoMonthLease 1 _ eq_refl)
    as (Hmonth & Hpay & _).
  split; [exact Hmonth|exact Hpay].
Defined.

Lemma schedule_balances_on_two_month_lease :
  let calc := calculateLeaseMetrics twoMonthLease in
  let row := fst (scheduleBody twoMonthLease calc 1%Z (initialBalances calc)) in
  In row (generateAmortizationSchedule twoMonthLease)
  /\ 0 <= endingLeaseLiability row
  /\ 0 <= rightOfUseAssetBalance row.
Proof.
  cbv zeta.
  assert (Hin : In (fst (scheduleBody twoMonthLease
                           (calculateLeaseMetrics twoMonthLease) 1%Z
                           (initialBalances (calculateLeaseMetrics twoMonthLease))))
                  (generateAmortizationSchedule twoMonthLease))
    by (apply nth_error_In with (n := 0%nat); reflexivity).
  split; [exact Hin|].
  exact (schedule_balances_are_not_negative twoMonthLease _ Hin).
Defined.

Lemma right_of_use_asset_equals_liability_on_two_month_lease :
  omittedOrZero (prepaidRent twoMonthLease)
  /\ omittedOrZero (initialDirectCosts twoMonthLease)
  /\ omittedOrZero (leaseIncentives twoMonthLease)
  /\ initialRightOfUseAsset (calculateLeaseMetrics twoMonthLease)
     == initialLeaseLiability (calculateLeaseMetrics twoMonthLease).
Proof.
  split; [exact I|]. split; [exact I|]. split; [exact I|].
  exact (right_of_use_asset_equals_liability_without_extras twoMonthLease I I I).
Defined.








Lemma verifyAuth_reads_the_demo_token :
  index 0 "Bearer " "token-1" = None
  /\ @verifyAuth demoVerifyIdToken demoAuthHeader = Some "test-user"%string.
Proof.
  assert (Hidx : index 0 "Bearer " "token-1" = None) by reflexivity.
  split; [exact Hidx|].
  exact (verifyAuth_reads_the_bearer_token demoVerifyIdToken "token-1" Hidx).
Defined.

Lemma journalEntries_GET_generates_on_demo_store :
  @verifyAuth demoVerifyIdToken demoAuthHeader = Some (userId twoMonthLease)
  /\ "lease-1"%string <> ""%string
  /\ getLease demoDb "lease-1" = Some twoMonthLease
  /\ entriesWhereLeaseId demoDb "lease-1" = []
  /\ exists generated : list StoredEntry,
       fst (journalEntries_GET demoVerifyIdToken demoAuthHeader
              (Some "lease-1"%string) demoNewIds demoClock demoDb)
       = Ok generated
       /\ List.length generated = 5%nat.
Proof.
  assert (Hauth : @verifyAuth demoVerifyIdToken demoAuthHeader
                  = Some (userId twoMonthLease)) by reflexivity.
  assert (Hname : "lease-1"%string <> ""%string) by discriminate.
  split; [exact Hauth|]. split; [exact Hname|].
  split; [reflexivity|]. split; [reflexivity|].
  destruct (journalEntries_GET_generates_once demoVerifyIdToken demoAuthHeader
              "lease-1" twoMonthLease demoNewIds demoClock demoDb
              Hauth Hname eq_refl eq_refl)
    as (generated & Hget & _ & Hlen & _).
  exists generated. rewrite Hget. split; [reflexivity|exact Hlen].
Defined.

Lemma journalEntries_GET_returns_stored_on_demo_store :
  @verifyAuth demoVerifyIdToken demoAuthHeader = Some (userId twoMonthLease)
  /\ "lease-1"%string <> ""%string
  /\ getLease demoDbWithEntry "lease-1" = Some twoMonthLease
  /\ entriesWhereLeaseId demoDbWithEntry "lease-1" <> []
  /\ exists entries : list StoredEntry,
       journalEntries_GET demoVerifyIdToken demoAuthHeader
         (Some "lease-1"%string) demoNewIds demoClock demoDbWithEntry
       = (Ok entries, demoDbWithEntry)
       /\ Permutation entries (entriesWhereLeaseId demoDbWithEntry "lease-1").
Proof.
  assert (Hauth : @verifyAuth demoVerifyIdToken demoAuthHeader
                  = Some (userId twoMonthLease)) by reflexivity.
  assert (Hname : "lease-1"%string <> ""%string) by discriminate.
  assert (Hsome : entriesWhereLeaseId demoDbWithEntry "lease-1" <> [])
    by discriminate.
  split; [exact Hauth|]. split; [exact Hname|].
  split; [reflexivity|]. split; [exact Hsome|].
  destruct (journalEntries_GET_returns_stored_entries demoVerifyIdToken
              demoAuthHeader "lease-1" twoMonthLease demoNewIds demoClock
              demoDbWithEntry Hauth Hname eq_refl Hsome)
    as (entries & Hget & Hperm & _).
  exists entries. split; [exact Hget|exact Hperm].
Defined.

Lemma journalEntries_POST_replaces_on_demo_store :
  @verifyAuth demoVerifyIdToken demoAuthHeader = Some (userId twoMonthLease)
  /\ "lease-1"%string <> ""%string
  /\ getLease demoDbWithEntry "lease-1" = Some twoMonthLease
  /\ id twoMonthLease = None
  /\ exists (entries : list StoredEntry) (db' : Firestore),
       journalEntries_POST demoVerifyIdToken demoAuthHeader
         (Some (Some "lease-1"%string)) demoNewIds demoClock demoDbWithEntry
       = (Ok entries, db')
       /\ List.length (entriesWhereLeaseId db' "lease-1") = 5%nat.
Proof.
  assert (Hauth : @verifyAuth demoVerifyIdToken demoAuthHeader
                  = Some (userId twoMonthLease)) by reflexivity.
  assert (Hname : "lease-1"%string <> ""%string) by discriminate.
  split; [exact Hauth|]. split; [exact Hname|].
  split; [reflexivity|]. split; [reflexivity|].
  destruct (journalEntries_POST_replaces_the_entries demoVerifyIdToken
              demoAuthHeader "lease-1" twoMonthLease demoNewIds demoClock
              demoDbWithEntry Hauth Hname eq_refl eq_refl)
    as (entries & db' & Hpost & Hmine & _).
  exists entries, db'. split; [exact Hpost|].
  rewrite Hmine. reflexivity.
Defined.
